(** * config-capdAlg.h: the generated configuration header of capdAlg

    The header is embedded byte for byte as a [string].  On top of it sits a
    small model of the C preprocessor phases that matter for such a header:
    splitting into physical lines, comment removal, recognition of
    directives, and the macro table built by [#define] and [#undef]. *)

From Stdlib Require Import Ascii String NArith.
From stdpp Require Import base option list gmap strings.

Local Open Scope string_scope.

(** ** Characters *)

Definition dquote : ascii := ascii_of_nat 34.
Definition newline : ascii := ascii_of_nat 10.
Definition tab : ascii := ascii_of_nat 9.
Definition cr : ascii := ascii_of_nat 13.

Definition in_range (lo hi : nat) (c : ascii) : bool :=
  (lo <=? nat_of_ascii c)%nat && (nat_of_ascii c <=? hi)%nat.

Definition is_space (c : ascii) : bool :=
  Ascii.eqb c " " || Ascii.eqb c tab || Ascii.eqb c cr.
Definition is_digit (c : ascii) : bool := in_range 48 57 c.
Definition is_upper (c : ascii) : bool := in_range 65 90 c.
Definition is_lower (c : ascii) : bool := in_range 97 122 c.
Definition is_ident_start (c : ascii) : bool :=
  is_upper c || is_lower c || Ascii.eqb c "_".
Definition is_ident_char (c : ascii) : bool := is_ident_start c || is_digit c.

Definition ascii_to_lower (c : ascii) : ascii :=
  if is_upper c then ascii_of_nat (nat_of_ascii c + 32) else c.

Fixpoint to_lower (s : string) : string :=
  match s with
  | EmptyString => EmptyString
  | String c s' => String (ascii_to_lower c) (to_lower s')
  end.

(** ** The source text *)

Definition quoted (s : string) : string :=
  String dquote (s +:+ String dquote EmptyString).

Module Source.

(** The 74 physical lines of the header, in file order. *)
Definition lines : list string :=
  [ "/* include/capd/config-capdAlg.h.  Generated from config-capdAlg.h.in by configure.  */";
    "/* include/capd/config-capdAlg.h.in.  Generated from configure.ac by autoheader.  */";
    "";
    "/* define if the compiler supports basic C++11 syntax */";
    "#define HAVE_CXX11 1";
    "";
    "/* Define to 1 if you have the <dlfcn.h> header file. */";
    "#define HAVE_DLFCN_H 1";
    "";
    "/* Define to 1 if you have the <inttypes.h> header file. */";
    "#define HAVE_INTTYPES_H 1";
    "";
    "/* Define to 1 if you have the `gmp' library (-lgmp). */";
    "/* #undef HAVE_LIBGMP */";
    "";
    "/* Define to 1 if you have the `gmpxx' library (-lgmpxx). */";
    "/* #undef HAVE_LIBGMPXX */";
    "";
    "/* Define to 1 if you have the `mpfr' library (-lmpfr). */";
    "/* #undef HAVE_LIBMPFR */";
    "";
    "/* Define to 1 if you have the <memory.h> header file. */";
    "#define HAVE_MEMORY_H 1";
    "";
    "/* Have mpcapdAlg */";
    "/* #undef HAVE_MPCAPD_ALG */";
    "";
    "/* PARI library */";
    "/* #undef HAVE_PARI */";
    "";
    "/* Define to 1 if you have the <stdint.h> header file. */";
    "#define HAVE_STDINT_H 1";
    "";
    "/* Define to 1 if you have the <stdlib.h> header file. */";
    "#define HAVE_STDLIB_H 1";
    "";
    "/* Define to 1 if you have the <strings.h> header file. */";
    "#define HAVE_STRINGS_H 1";
    "";
    "/* Define to 1 if you have the <string.h> header file. */";
    "#define HAVE_STRING_H 1";
    "";
    "/* Define to 1 if you have the <sys/stat.h> header file. */";
    "#define HAVE_SYS_STAT_H 1";
    "";
    "/* Define to 1 if you have the <sys/types.h> header file. */";
    "#define HAVE_SYS_TYPES_H 1";
    "";
    "/* Define to 1 if you have the <unistd.h> header file. */";
    "#define HAVE_UNISTD_H 1";
    "";
    "/* Define to the sub-directory where libtool stores uninstalled libraries. */";
    "#define LT_OBJDIR " +:+ quoted ".libs/";
    "";
    "/* Define to the address where bug reports for this package should be sent. */";
    "#define PACKAGE_BUGREPORT " +:+ quoted "http://capd.ii.uj.edu.pl";
    "";
    "/* Define to the full name of this package. */";
    "#define PACKAGE_NAME " +:+ quoted "capdAlg";
    "";
    "/* Define to the full name and version of this package. */";
    "#define PACKAGE_STRING " +:+ quoted "capdAlg 5.1.2";
    "";
    "/* Define to the one symbol short name of this package. */";
    "#define PACKAGE_TARNAME " +:+ quoted "capdalg";
    "";
    "/* Define to the home page for this package. */";
    "#define PACKAGE_URL " +:+ quoted "http://capd.ii.uj.edu.pl";
    "";
    "/* Define to the version of this package. */";
    "#define PACKAGE_VERSION " +:+ quoted "5.1.2";
    "";
    "/* Define to 1 if you have the ANSI C header files. */";
    "#define STDC_HEADERS 1" ].

(** The file as stored: the lines separated by line feeds; the last line
    carries no terminating line feed. *)
Definition config_capdAlg_h : string :=
  String.concat (String newline EmptyString) lines.

Definition path : string :=
  "_codeql_build_dir/external/tmp-capd/src/capdAlg/include/capd/config-capdAlg.h".

(** The repository slice: every source file with its contents. *)
Definition repository : list (string * string) := [ (path, config_capdAlg_h) ].

End Source.

(** ** Physical lines *)

Fixpoint rev_string_onto (s acc : string) : string :=
  match s with
  | EmptyString => acc
  | String c s' => rev_string_onto s' (String c acc)
  end.

Definition rev_string (s : string) : string := rev_string_onto s EmptyString.

(** [cur] holds the characters of the line being read, last one first.  A
    final line without terminator still counts; a terminator at the very end
    of the text does not open another line. *)
Fixpoint split_lines_from (cur : string) (s : string) : list string :=
  match s with
  | EmptyString =>
      match cur with
      | EmptyString => []
      | _ => [rev_string cur]
      end
  | String c s' =>
      if Ascii.eqb c newline
      then rev_string cur :: split_lines_from EmptyString s'
      else split_lines_from (String c cur) s'
  end.

Definition split_lines (text : string) : list string :=
  split_lines_from EmptyString text.

Definition line_count (text : string) : nat := length (split_lines text).

Fixpoint count_char (c : ascii) (s : string) : nat :=
  match s with
  | EmptyString => 0
  | String d s' => (if Ascii.eqb c d then 1 else 0) + count_char c s'
  end.

(** ** Comment removal (translation phase 3)

    One physical line is scanned at a time; the mode reached at the end of a
    line is the mode the next line starts in, so a comment may span lines.
    Each comment is replaced by one space.  Inside a string or character
    literal the comment openers are ordinary characters. *)

Inductive lex_mode := MCode | MComment | MString | MChar.

#[export] Instance lex_mode_eq_dec : EqDecision lex_mode.
Proof. solve_decision. Defined.

Record scanned := Scanned {
  sc_text : string;        (* the line with comments replaced *)
  sc_comment : bool;       (* some part of the line lay inside a comment *)
  sc_mode : lex_mode       (* mode at the end of the line *)
}.

Definition emit (c : ascii) (r : scanned) : scanned :=
  Scanned (String c (sc_text r)) (sc_comment r) (sc_mode r).

Definition in_comment (r : scanned) : scanned :=
  Scanned (sc_text r) true (sc_mode r).

Definition end_of_line (m : lex_mode) : scanned :=
  match m with
  | MComment => Scanned "" true MComment
  | _ => Scanned "" false MCode
  end.

Fixpoint scan_line (m : lex_mode) (s : string) : scanned :=
  match s with
  | EmptyString => end_of_line m
  | String c s' =>
      match m with
      | MCode =>
          let plain :=
            emit c (scan_line (if Ascii.eqb c dquote then MString
                               else if Ascii.eqb c "'" then MChar
                               else MCode) s') in
          match s' with
          | String d s'' =>
              if Ascii.eqb c "/" && Ascii.eqb d "*"
              then in_comment (emit " " (scan_line MComment s''))
              else if Ascii.eqb c "/" && Ascii.eqb d "/"
              then Scanned " " true MCode
              else plain
          | EmptyString => plain
          end
      | MComment =>
          match s' with
          | String d s'' =>
              if Ascii.eqb c "*" && Ascii.eqb d "/"
              then in_comment (scan_line MCode s'')
              else in_comment (scan_line MComment s')
          | EmptyString => in_comment (scan_line MComment s')
          end
      | MString =>
          match s' with
          | String d s'' =>
              if Ascii.eqb c "\"
              then emit c (emit d (scan_line MString s''))
              else emit c (scan_line (if Ascii.eqb c dquote then MCode else MString) s')
          | EmptyString => emit c (scan_line MCode s')
          end
      | MChar =>
          match s' with
          | String d s'' =>
              if Ascii.eqb c "\"
              then emit c (emit d (scan_line MChar s''))
              else emit c (scan_line (if Ascii.eqb c "'" then MCode else MChar) s')
          | EmptyString => emit c (scan_line MCode s')
          end
      end
  end.

(** ** Small string utilities used by the directive parser *)

Fixpoint skip_spaces (s : string) : string :=
  match s with
  | String c s' => if is_space c then skip_spaces s' else s
  | EmptyString => EmptyString
  end.

Definition trim (s : string) : string :=
  rev_string (skip_spaces (rev_string (skip_spaces s))).

(** The longest prefix of identifier characters, and what follows it. *)
Fixpoint take_ident (s : string) : string * string :=
  match s with
  | String c s' =>
      if is_ident_char c
      then let '(i, r) := take_ident s' in (String c i, r)
      else (EmptyString, s)
  | EmptyString => (EmptyString, EmptyString)
  end.

(** Everything before the first [c], and everything after it. *)
Fixpoint split_at_char (c : ascii) (s : string) : option (string * string) :=
  match s with
  | String d s' =>
      if Ascii.eqb c d then Some (EmptyString, s')
      else '(a, b) ← split_at_char c s'; Some (String d a, b)
  | EmptyString => None
  end.

Fixpoint all_chars (p : ascii -> bool) (s : string) : bool :=
  match s with
  | String c s' => p c && all_chars p s'
  | EmptyString => true
  end.

(** The identifiers of a line: the maximal runs of identifier characters
    that do not start with a digit.  [cur] is the run being read, reversed. *)
Definition close_run (cur : string) (k : list string) : list string :=
  match rev_string cur with
  | EmptyString => k
  | String c _ as w => if is_ident_start c then w :: k else k
  end.

Fixpoint identifiers_from (cur : string) (s : string) : list string :=
  match s with
  | String c s' =>
      if is_ident_char c then identifiers_from (String c cur) s'
      else close_run cur (identifiers_from EmptyString s')
  | EmptyString => close_run cur []
  end.

Definition identifiers (s : string) : list string :=
  identifiers_from EmptyString s.

Definition mentions (name line : string) : bool :=
  bool_decide (name ∈ identifiers line).

(** ** Directives and line kinds *)

Record macro_def := MacroDef {
  md_params : option string;   (* [None] for an object-like macro *)
  md_body : string             (* the replacement list, trimmed *)
}.

#[export] Instance macro_def_eq_dec : EqDecision macro_def.
Proof. solve_decision. Defined.

Definition object_like (body : string) : macro_def := MacroDef None body.

Inductive directive :=
| DDefine (name : string) (def : macro_def)
| DUndef (name : string)
| DInclude (arg : string)
| DIf (cond : string)
| DIfdef (name : string)
| DIfndef (name : string)
| DElif (cond : string)
| DElse
| DEndif
| DOther (name rest : string).   (* pragma, error, line, the null directive, ... *)

Inductive line_kind :=
| LBlank                      (* nothing but white space *)
| LComment                    (* nothing but white space once comments are gone *)
| LDirective (d : directive)
| LCode (text : string).      (* declarations, statements, any other tokens *)

(** What follows [#define]: the macro name, then either a parameter list
    opened by a parenthesis that touches the name, or the replacement list. *)
Definition parse_define (rest : string) : directive :=
  let '(name, after) := take_ident (skip_spaces rest) in
  match name with
  | EmptyString => DOther "define" rest
  | String c _ =>
      if negb (is_ident_start c) then DOther "define" rest
      else match after with
           | String "(" args =>
               match split_at_char ")" args with
               | Some (ps, body) => DDefine name (MacroDef (Some (trim ps)) (trim body))
               | None => DOther "define" rest
               end
           | _ => DDefine name (object_like (trim after))
           end
  end.

Definition parse_directive (after_hash : string) : directive :=
  let '(kw, rest) := take_ident (skip_spaces after_hash) in
  if String.eqb kw "define" then parse_define rest
  else if String.eqb kw "undef" then DUndef (fst (take_ident (skip_spaces rest)))
  else if String.eqb kw "include" then DInclude (trim rest)
  else if String.eqb kw "if" then DIf (trim rest)
  else if String.eqb kw "ifdef" then DIfdef (fst (take_ident (skip_spaces rest)))
  else if String.eqb kw "ifndef" then DIfndef (fst (take_ident (skip_spaces rest)))
  else if String.eqb kw "elif" then DElif (trim rest)
  else if String.eqb kw "else" then DElse
  else if String.eqb kw "endif" then DEndif
  else DOther kw (trim rest).

Definition classify_scanned (r : scanned) : line_kind :=
  match skip_spaces (sc_text r) with
  | EmptyString => if sc_comment r then LComment else LBlank
  | String "#" after => LDirective (parse_directive after)
  | text => LCode (trim text)
  end.

(** Kinds of all lines of a text, threading the lexer mode from line to line. *)
Fixpoint classify_from (m : lex_mode) (ls : list string) : list line_kind :=
  match ls with
  | [] => []
  | l :: ls' =>
      let r := scan_line m l in
      classify_scanned r :: classify_from (sc_mode r) ls'
  end.

Definition classify (text : string) : list line_kind :=
  classify_from MCode (split_lines text).

(** The [#define] directives of a text, in order of appearance. *)
Definition define_of (k : line_kind) : option (string * macro_def) :=
  match k with
  | LDirective (DDefine name def) => Some (name, def)
  | _ => None
  end.

Definition defines (text : string) : list (string * macro_def) :=
  omap define_of (classify text).

Definition define_names (text : string) : list string := (defines text).*1.

(** Shapes of lines. *)
Definition is_define (k : line_kind) : bool :=
  match k with LDirective (DDefine _ _) => true | _ => false end.

Definition is_object_define (k : line_kind) : bool :=
  match k with LDirective (DDefine _ (MacroDef None _)) => true | _ => false end.

Definition is_conditional (k : line_kind) : bool :=
  match k with
  | LDirective (DIf _ | DIfdef _ | DIfndef _ | DElif _ | DElse | DEndif) => true
  | _ => false
  end.

Definition is_include (k : line_kind) : bool :=
  match k with LDirective (DInclude _) => true | _ => false end.

Definition is_code (k : line_kind) : bool :=
  match k with LCode _ => true | _ => false end.

Definition is_blank_or_comment (k : line_kind) : bool :=
  match k with LBlank | LComment => true | _ => false end.

(** ** Replacement lists *)

Inductive macro_value :=
| VEmpty
| VInteger (n : N)            (* a decimal integer literal *)
| VString (contents : string) (* one string literal; escapes kept as written *)
| VIdentifier (name : string)
| VTokens (text : string).    (* anything else *)

#[export] Instance macro_value_eq_dec : EqDecision macro_value.
Proof. solve_decision. Defined.

Fixpoint decimal_from (acc : N) (s : string) : N :=
  match s with
  | EmptyString => acc
  | String c s' => decimal_from (10 * acc + N.of_nat (nat_of_ascii c - 48)) s'
  end.

(** The characters up to the closing quote, and what follows the quote. *)
Fixpoint string_literal_tail (s : string) : option (string * string) :=
  match s with
  | EmptyString => None
  | String c s' =>
      if Ascii.eqb c dquote then Some (EmptyString, s')
      else if Ascii.eqb c "\" then
        match s' with
        | String d s'' =>
            '(a, b) ← string_literal_tail s''; Some (String c (String d a), b)
        | EmptyString => None
        end
      else '(a, b) ← string_literal_tail s'; Some (String c a, b)
  end.

Definition value_of_body (body : string) : macro_value :=
  match body with
  | EmptyString => VEmpty
  | String c rest =>
      if Ascii.eqb c dquote then
        match string_literal_tail rest with
        | Some (contents, EmptyString) => VString contents
        | _ => VTokens body
        end
      else if is_digit c then
        if all_chars is_digit rest && (negb (Ascii.eqb c "0") || String.eqb rest "")
        then VInteger (decimal_from 0 body)
        else VTokens body
      else if is_ident_start c && all_chars is_ident_char rest then VIdentifier body
      else VTokens body
  end.

(** ** The macro table (translation phase 4)

    Only what a configuration header exercises is interpreted: [#define],
    [#undef] and the [#ifdef] family that consumers branch with.  Directives
    whose meaning depends on things outside the text ([#include], the
    constant expressions of [#if] and [#elif]) stop the run with an error. *)

Inductive pp_error :=
| ERedefined (name : string)      (* defined again with a different definition:
                                     the diagnostic ISO C asks for; what a
                                     compiler does after it is left out *)
| EUnbalanced                     (* [#else] or [#endif] without opener, or opener left open *)
| EUnsupported (what : string).

Inductive result (A : Type) :=
| Ok (a : A)
| Err (e : pp_error).
Arguments Ok {A} a.
Arguments Err {A} e.

Record pp_state := PPState {
  macros : gmap string macro_def;
  conds : list bool;        (* open conditional groups, innermost first *)
  emitted : list string     (* text lines passed on to the compiler, newest first *)
}.

(** The empty state.  The macros an implementation predefines are not in
    it; a state that holds some is passed explicitly where it matters. *)
Definition initial : pp_state := PPState ∅ [] [].

Definition active (st : pp_state) : bool := forallb id (conds st).

Definition is_defined (st : pp_state) (name : string) : bool :=
  bool_decide (is_Some (macros st !! name)).

Definition open_group (b : bool) (st : pp_state) : pp_state :=
  PPState (macros st) (b :: conds st) (emitted st).

Definition run_directive (st : pp_state) (d : directive) : result pp_state :=
  match d with
  | DIfdef name => Ok (open_group (is_defined st name) st)
  | DIfndef name => Ok (open_group (negb (is_defined st name)) st)
  | DIf _ => if active st then Err (EUnsupported "if") else Ok (open_group false st)
  | DElif _ =>
      match conds st with
      | [] => Err EUnbalanced
      | _ :: outer => if forallb id outer then Err (EUnsupported "elif") else Ok st
      end
  | DElse =>
      match conds st with
      | [] => Err EUnbalanced
      | b :: outer => Ok (PPState (macros st) (negb b :: outer) (emitted st))
      end
  | DEndif =>
      match conds st with
      | [] => Err EUnbalanced
      | _ :: outer => Ok (PPState (macros st) outer (emitted st))
      end
  | DDefine name def =>
      if negb (active st) then Ok st
      else match macros st !! name with
           | Some old =>
               if bool_decide (old = def) then Ok st else Err (ERedefined name)
           | None => Ok (PPState (<[name := def]> (macros st)) (conds st) (emitted st))
           end
  | DUndef name =>
      if negb (active st) then Ok st
      else Ok (PPState (delete name (macros st)) (conds st) (emitted st))
  | DInclude _ => if active st then Err (EUnsupported "include") else Ok st
  | DOther kw _ => if active st then Err (EUnsupported kw) else Ok st
  end.

Definition run_line (st : pp_state) (k : line_kind) : result pp_state :=
  match k with
  | LBlank | LComment => Ok st
  | LDirective d => run_directive st d
  | LCode text =>
      if active st
      then Ok (PPState (macros st) (conds st) (text :: emitted st))
      else Ok st
  end.

Fixpoint run_lines (st : pp_state) (ks : list line_kind) : result pp_state :=
  match ks with
  | [] => Ok st
  | k :: ks' =>
      match run_line st k with
      | Ok st' => run_lines st' ks'
      | Err e => Err e
      end
  end.

Definition preprocess_from (st : pp_state) (text : string) : result pp_state :=
  match run_lines st (classify text) with
  | Ok st' => match conds st' with [] => Ok st' | _ => Err EUnbalanced end
  | Err e => Err e
  end.

Definition preprocess (text : string) : result pp_state :=
  preprocess_from initial text.

(** The macro table a translation unit sees right after including the text;
    an erroneous text leaves no table. *)
Definition macro_table (text : string) : option (gmap string macro_def) :=
  match preprocess text with
  | Ok st => Some (macros st)
  | Err _ => None
  end.

Definition lookup_macro (text name : string) : option macro_def :=
  tbl ← macro_table text; tbl !! name.

Definition macro_value_of (text name : string) : option macro_value :=
  (λ d, value_of_body (md_body d)) <$> lookup_macro text name.

(** ** The header under study *)

Definition header : string := Source.config_capdAlg_h.

(** The macros that record a detected header or language feature. *)
Definition feature_macros : list string :=
  [ "HAVE_CXX11"; "HAVE_DLFCN_H"; "HAVE_INTTYPES_H"; "HAVE_MEMORY_H";
    "HAVE_STDINT_H"; "HAVE_STDLIB_H"; "HAVE_STRINGS_H"; "HAVE_STRING_H";
    "HAVE_SYS_STAT_H"; "HAVE_SYS_TYPES_H"; "HAVE_UNISTD_H"; "STDC_HEADERS" ].

(** The macros of the optional numeric back ends. *)
Definition backend_macros : list string :=
  [ "HAVE_LIBGMP"; "HAVE_LIBGMPXX"; "HAVE_LIBMPFR"; "HAVE_PARI"; "HAVE_MPCAPD_ALG" ].

Definition package_macros : list string :=
  [ "PACKAGE_NAME"; "PACKAGE_VERSION"; "PACKAGE_URL"; "PACKAGE_BUGREPORT" ].

Definition is_prefix_of (p s : string) : bool :=
  String.eqb (String.substring 0 (String.length p) s) p.

Definition is_feature_name (name : string) : bool :=
  is_prefix_of "HAVE_" name || String.eqb name "STDC_HEADERS".

(** The lines of a text on which [name] occurs as an identifier. *)
Definition occurrences (name text : string) : list string :=
  filter (λ l, mentions name l = true) (split_lines text).

Definition undef_comment (name : string) : string :=
  "/* #undef " +:+ name +:+ " */".

(** Each physical line next to its kind. *)
Definition line_table (text : string) : list (string * line_kind) :=
  zip (split_lines text) (classify text).

(** The lines on which [name] occurs as an identifier, with their kinds. *)
Definition entries (name text : string) : list (string * line_kind) :=
  filter (λ p, mentions name p.1 = true) (line_table text).

(** How often [name] is the subject of a [#define]. *)
Definition define_count (name text : string) : nat :=
  length (filter (λ n, n = name) (define_names text)).

(** A consumer's guarded block: the code line is compiled only when [name]
    is defined. *)
Definition guarded_block (name code : string) : list line_kind :=
  [ LDirective (DIfdef name); LCode code; LDirective DEndif ].

(** A consumer's two-way selection: [yes] is compiled when [name] is
    defined, [no] otherwise. *)
Definition select_block (name yes no : string) : list line_kind :=
  [ LDirective (DIfdef name); LCode yes;
    LDirective DElse; LCode no;
    LDirective DEndif ].

(** Lines that leave conditionals, inclusion and program text out. *)
Definition flat (ks : list line_kind) : Prop :=
  Forall (λ k, is_blank_or_comment k || is_define k = true) ks.

(** A macro table is compatible with a list of definitions when it holds
    none of their names or holds them with the same definition. *)
Definition compatible (m : gmap string macro_def)
    (defs : list (string * macro_def)) : Prop :=
  Forall (λ p, m !! p.1 = None ∨ m !! p.1 = Some p.2) defs.

#[export] Instance compatible_dec m defs : Decision (compatible m defs).
Proof. unfold compatible. apply _. Defined.

(** ** Layout of a generated header *)

(** The text between the comment marks of a line that is one comment. *)
Definition comment_interior (line : string) : option string :=
  match trim line with
  | String "/" (String "*" rest) =>
      match rev_string rest with
      | String "/" (String "*" inner) => Some (rev_string inner)
      | _ => None
      end
  | _ => None
  end.

(** The name in a commented-out [#undef], the form in which the template
    records a symbol that was not detected. *)
Definition commented_undef (line : string) : option string :=
  inner ← comment_interior line;
  match classify_scanned (scan_line MCode inner) with
  | LDirective (DUndef name) => Some name
  | _ => None
  end.

(** The symbol a line settles: defined by a directive, or left undefined by
    a commented-out [#undef]. *)
Definition entry_name (p : string * line_kind) : option string :=
  match p.2 with
  | LDirective (DDefine name _) => Some name
  | LComment => commented_undef p.1
  | _ => None
  end.

Definition entry_names (text : string) : list string :=
  omap entry_name (line_table text).

Definition undef_names (text : string) : list string :=
  omap (λ p, match p.2 with LComment => commented_undef p.1 | _ => None end)
       (line_table text).

(** Groups of three lines: a blank line, a describing comment, an entry. *)
Fixpoint laid_out (t : list (string * line_kind)) : bool :=
  match t with
  | [] => true
  | b :: c :: e :: t' =>
      match b.2, c.2, entry_name c, entry_name e with
      | LBlank, LComment, None, Some _ => laid_out t'
      | _, _, _, _ => false
      end
  | _ => false
  end.

Fixpoint ascending (l : list string) : bool :=
  match l with
  | a :: (b :: _) as t => String.ltb a b && ascending t
  | _ => true
  end.

(** ** Character set *)

Definition is_printable (c : ascii) : bool := in_range 32 126 c.

Definition ends_with_space (line : string) : bool :=
  match rev_string line with
  | String c _ => is_space c
  | EmptyString => false
  end.

(** ** Kinds of macro definitions *)

Definition is_metadata_name (name : string) : bool :=
  String.eqb name "LT_OBJDIR" || is_prefix_of "PACKAGE_" name.

(** The definition of a feature-detection macro, told by its name. *)
Definition is_feature_define (k : line_kind) : bool :=
  match k with
  | LDirective (DDefine name _) => is_feature_name name
  | _ => false
  end.

(** A presence flag: an object-like feature-detection macro with value 1. *)
Definition is_flag_define (k : line_kind) : bool :=
  match k with
  | LDirective (DDefine name (MacroDef None body)) =>
      is_feature_name name && bool_decide (value_of_body body = VInteger 1)
  | _ => false
  end.

(** Build metadata: an object-like macro named LT_OBJDIR or PACKAGE_... whose
    value is one string literal. *)
Definition is_metadata_define (k : line_kind) : bool :=
  match k with
  | LDirective (DDefine name (MacroDef None body)) =>
      is_metadata_name name && negb (is_feature_name name) &&
      match value_of_body body with VString _ => true | _ => false end
  | _ => false
  end.

(** Nothing but feature-detection macros, comments and blank lines. *)
Definition only_feature_macros (ks : list line_kind) : Prop :=
  Forall (λ k, is_blank_or_comment k || is_feature_define k = true) ks.

(** Every one of [names] is a macro of the text. *)
Definition defines_all (text : string) (names : list string) : Prop :=
  Forall (λ n, is_Some (lookup_macro text n)) names.

(** ** Sample states *)

(** A table as a command line would set it up: a back-end macro switched on
    by hand, and one macro of the header given its very definition. *)
Definition predefined_state : pp_state :=
  PPState (<["HAVE_LIBGMP" := object_like "1"]>
             (<["HAVE_CXX11" := object_like "1"]> ∅)) [] [].

(** A table left by the configuration header of a sibling package. *)
Definition sibling_state : pp_state :=
  PPState (<["PACKAGE_NAME" := object_like (quoted "capdAux")]> ∅) [] [].

(** The state right after the header, read on its own. *)
Definition header_state : pp_state :=
  PPState (list_to_map (defines header)) [] [].

(** * Properties *)

Ltac each_element :=
  repeat first [ apply List.Forall_nil | apply List.Forall_cons ].

Ltac evaluate := vm_compute; reflexivity.

(** Splits a conjunction into its parts without touching the equations. *)
Ltac conjuncts :=
  repeat match goal with |- _ ∧ _ => split end.

(** ** Generic facts about the model *)

Lemma string_literal_tail_plain (s rest : string) :
  all_chars (λ c, negb (Ascii.eqb c dquote) && negb (Ascii.eqb c "\")) s = true →
  string_literal_tail (s +:+ String dquote rest) = Some (s, rest).
Proof.
  induction s as [|c s IH].
  - intros _. reflexivity.
  - simpl. intros [[Hq Hb]%andb_prop Hs]%andb_prop.
    apply negb_true_iff in Hq, Hb. rewrite Hq, Hb, (IH Hs). done.
Qed.

(** A replacement list that is one quoted run of plain characters is a
    string literal with exactly these characters. *)
Lemma value_of_quoted (s : string) :
  all_chars (λ c, negb (Ascii.eqb c dquote) && negb (Ascii.eqb c "\")) s = true →
  value_of_body (quoted s) = VString s.
Proof.
  intros Hs. unfold quoted, value_of_body.
  change (Ascii.eqb dquote dquote) with true. cbv iota.
  by rewrite (string_literal_tail_plain s EmptyString Hs).
Qed.

Lemma run_line_blank_or_comment st k :
  is_blank_or_comment k = true → run_line st k = Ok st.
Proof. by destruct k. Qed.

(** A block guarded by [#ifdef name] contributes no code when [name] is not
    in the macro table, and leaves the table as it was. *)
Lemma guarded_block_skipped st name code :
  macros st !! name = None →
  run_lines st (guarded_block name code) = Ok st.
Proof.
  intros Hn. destruct st as [m cs out]; simpl in *.
  unfold is_defined; simpl. rewrite Hn.
  rewrite bool_decide_eq_false_2 by (by intros [? ?]).
  done.
Qed.

(** A block guarded by [#ifdef name] is compiled when [name] is defined and
    the guard is reached in an active region. *)
Lemma guarded_block_taken st name code def :
  macros st !! name = Some def →
  active st = true →
  run_lines st (guarded_block name code)
  = Ok (PPState (macros st) (conds st) (code :: emitted st)).
Proof.
  intros Hn Hact. destruct st as [m cs out]; simpl in *.
  unfold is_defined, active in *; simpl in *. rewrite Hn.
  rewrite bool_decide_eq_true_2 by eauto.
  simpl. by rewrite Hact.
Qed.

(** A text made of blank lines, comments and definitions of pairwise
    distinct fresh names runs without error, and its macro table is the
    list of its definitions. *)
Lemma run_lines_flat (ks : list line_kind) :
  ∀ st : pp_state,
  conds st = [] →
  Forall (λ k, is_blank_or_comment k || is_define k = true) ks →
  NoDup (omap define_of ks).*1 →
  (∀ n, n ∈ (omap define_of ks).*1 → macros st !! n = None) →
  run_lines st ks
  = Ok (PPState (list_to_map (omap define_of ks) ∪ macros st) [] (emitted st)).
Proof.
  induction ks as [|k ks IH]; intros [m cs out] Hc Hflat Hnd Hfresh; simpl in *.
  - subst cs. by rewrite (left_id_L ∅ (∪)).
  - subst cs. inversion_clear Hflat as [|? ? Hk Hks].
    destruct k as [| |d|t]; simpl in *; try done.
    + by apply (IH (PPState m [] out)).
    + by apply (IH (PPState m [] out)).
    + destruct d as [name def| | | | | | | | |]; simpl in *; try done.
      apply NoDup_cons in Hnd as [Hname Hnd].
      rewrite (Hfresh name) by (apply elem_of_cons; by left).
      rewrite (IH (PPState (<[name:=def]> m) [] out)); simpl; try done.
      * f_equal. f_equal.
        rewrite <- insert_union_l.
        symmetry. apply insert_union_r.
        by apply not_elem_of_list_to_map_1.
      * intros n Hn. rewrite lookup_insert_ne.
        -- apply Hfresh, elem_of_cons. by right.
        -- by intros ->.
Qed.

Lemma preprocess_flat (text : string) :
  Forall (λ k, is_blank_or_comment k || is_define k = true) (classify text) →
  NoDup (define_names text) →
  preprocess text = Ok (PPState (list_to_map (defines text)) [] []).
Proof.
  intros Hflat Hnd. unfold preprocess, preprocess_from.
  rewrite (run_lines_flat (classify text) initial eq_refl Hflat Hnd
             (λ n _, lookup_empty n)).
  cbv beta iota delta [conds initial macros emitted].
  by rewrite (right_id_L ∅ (∪)).
Qed.

Lemma macro_table_flat (text : string) :
  Forall (λ k, is_blank_or_comment k || is_define k = true) (classify text) →
  NoDup (define_names text) →
  macro_table text = Some (list_to_map (defines text)).
Proof.
  intros Hflat Hnd. unfold macro_table. by rewrite (preprocess_flat _ Hflat Hnd).
Qed.

(** For such a text, looking a name up in the table is the same as finding
    its definition among the directives. *)
Lemma lookup_macro_flat (text name : string) (def : macro_def) :
  Forall (λ k, is_blank_or_comment k || is_define k = true) (classify text) →
  NoDup (define_names text) →
  (name, def) ∈ defines text ↔ lookup_macro text name = Some def.
Proof.
  intros Hflat Hnd. unfold lookup_macro. rewrite (macro_table_flat _ Hflat Hnd).
  by apply elem_of_list_to_map.
Qed.

(** ** The header: its lines and its macro table *)

Lemma header_lines : split_lines header = Source.lines.
Proof. evaluate. Qed.

Lemma header_flat :
  Forall (λ k, is_blank_or_comment k || is_define k = true) (classify header).
Proof. apply List.Forall_forall, List.forallb_forall. evaluate. Qed.

Lemma header_define_names_nodup : NoDup (define_names header).
Proof. apply (bool_decide_unpack _). evaluate. Qed.

(** The header runs without error; its macro table holds exactly its
    definitions, and no code reaches the compiler. *)
Lemma header_preprocessed :
  preprocess header = Ok (PPState (list_to_map (defines header)) [] []).
Proof. exact (preprocess_flat header header_flat header_define_names_nodup). Qed.

Lemma header_lookup (name : string) (def : macro_def) :
  (name, def) ∈ defines header ↔ lookup_macro header name = Some def.
Proof.
  exact (lookup_macro_flat header name def header_flat header_define_names_nodup).
Qed.

(** ** Presence flags *)

(** C1: the feature macros the header defines are exactly HAVE_CXX11,
    HAVE_DLFCN_H, HAVE_INTTYPES_H, HAVE_MEMORY_H, HAVE_STDINT_H,
    HAVE_STDLIB_H, HAVE_STRINGS_H, HAVE_STRING_H, HAVE_SYS_STAT_H,
    HAVE_SYS_TYPES_H, HAVE_UNISTD_H and STDC_HEADERS; each of them is an
    object-like macro whose replacement list is the integer literal 1.  In
    particular HAVE_DLFCN_H is 1 and HAVE_STDINT_H is defined. *)
Theorem feature_macros_defined_to_1 :
  feature_macros = filter (λ n, is_feature_name n = true) (define_names header) ∧
  Forall (λ n, lookup_macro header n = Some (object_like "1") ∧
               macro_value_of header n = Some (VInteger 1)) feature_macros ∧
  macro_value_of header "HAVE_DLFCN_H" = Some (VInteger 1) ∧
  is_Some (lookup_macro header "HAVE_STDINT_H").
Proof.
  split; [evaluate|].
  split; [each_element; split; evaluate|].
  split; [evaluate|].
  exists (object_like "1"). evaluate.
Qed.

(** C2: none of HAVE_LIBGMP, HAVE_LIBGMPXX, HAVE_LIBMPFR, HAVE_PARI and
    HAVE_MPCAPD_ALG is defined once the header has been preprocessed.  Each
    name occurs on exactly one line, which is the comment
    [/* #undef NAME */] and nothing else; no directive defines it; and a
    consumer's block under [#ifdef NAME] is skipped whatever it holds. *)
Theorem backend_macros_undefined :
  ∃ st, preprocess header = Ok st ∧
    Forall (λ n, macros st !! n = None ∧
                 is_defined st n = false ∧
                 define_count n header = 0 ∧
                 entries n header = [(undef_comment n, LComment)] ∧
                 ∀ code, run_lines st (guarded_block n code) = Ok st)
           backend_macros.
Proof.
  eexists. split; [exact header_preprocessed|].
  each_element.
  all: match goal with
       | |- macros ?st !! ?n = None ∧ _ =>
           assert (macros st !! n = None) as Hnone by evaluate
       end.
  all: split; [exact Hnone|].
  all: split; [evaluate|].
  all: split; [evaluate|].
  all: split; [evaluate|].
  all: intros code; exact (guarded_block_skipped _ _ code Hnone).
Qed.

(** ** Shape of the file *)

(** C3 as stated does not hold: the header does not consist of
    feature-detection macros only, and it does not define all of
    HAVE_DLFCN_H, HAVE_LIBGMP and PACKAGE_VERSION:
    HAVE_LIBGMP is no macro of the header, and line 71 defines
    PACKAGE_VERSION, which records no detected feature. *)
Lemma header_has_macros_that_detect_nothing :
  lookup_macro header "HAVE_LIBGMP" = None ∧
  classify header !! 70
    = Some (LDirective (DDefine "PACKAGE_VERSION" (object_like (quoted "5.1.2")))) ∧
  is_feature_define
    (LDirective (DDefine "PACKAGE_VERSION" (object_like (quoted "5.1.2")))) = false ∧
  ¬ defines_all header ["HAVE_DLFCN_H"; "HAVE_LIBGMP"; "PACKAGE_VERSION"] ∧
  ¬ only_feature_macros (classify header).
Proof.
  assert (lookup_macro header "HAVE_LIBGMP" = None) as Hgmp by evaluate.
  assert (classify header !! 70
          = Some (LDirective
                    (DDefine "PACKAGE_VERSION" (object_like (quoted "5.1.2")))))
    as Hline by evaluate.
  split; [exact Hgmp|]. split; [exact Hline|]. split; [evaluate|]. split.
  - intros Hall. unfold defines_all in Hall.
    apply Forall_cons in Hall as [_ Hall].
    apply Forall_cons in Hall as [[d Hd] _].
    rewrite Hgmp in Hd. discriminate Hd.
  - intros Hall. unfold only_feature_macros in Hall.
    rewrite Forall_lookup in Hall. specialize (Hall 70 _ Hline).
    vm_compute in Hall. discriminate Hall.
Qed.

(** C3, amended: HAVE_DLFCN_H, HAVE_LIBGMP and PACKAGE_VERSION each have one
    entry in the header; HAVE_DLFCN_H and PACKAGE_VERSION are defined,
    HAVE_LIBGMP is only a commented-out [#undef] and stays undefined.
    Besides comments and blank lines the header holds object-like macro
    definitions of two kinds and nothing else: feature-detection flags
    (HAVE_..., STDC_HEADERS) with value 1, and build metadata (LT_OBJDIR,
    PACKAGE_...) whose value is a string literal. *)
Theorem header_macros_are_flags_or_metadata :
  entries "HAVE_DLFCN_H" header
    = [ ("#define HAVE_DLFCN_H 1",
         LDirective (DDefine "HAVE_DLFCN_H" (object_like "1"))) ] ∧
  entries "HAVE_LIBGMP" header = [ (undef_comment "HAVE_LIBGMP", LComment) ] ∧
  entries "PACKAGE_VERSION" header
    = [ ("#define PACKAGE_VERSION " +:+ quoted "5.1.2",
         LDirective (DDefine "PACKAGE_VERSION" (object_like (quoted "5.1.2")))) ] ∧
  lookup_macro header "HAVE_DLFCN_H" = Some (object_like "1") ∧
  lookup_macro header "HAVE_LIBGMP" = None ∧
  lookup_macro header "PACKAGE_VERSION" = Some (object_like (quoted "5.1.2")) ∧
  length (classify header) = line_count header ∧
  Forall (λ k, is_blank_or_comment k || is_flag_define k
               || is_metadata_define k = true) (classify header) ∧
  length (filter (λ k, is_flag_define k = true) (classify header)) = 12 ∧
  length (filter (λ k, is_metadata_define k = true) (classify header)) = 7.
Proof.
  conjuncts; try evaluate.
  apply List.Forall_forall, List.forallb_forall. evaluate.
Qed.

(** C6: every line of the header is blank, a comment, or the definition of
    an object-like macro.  No line is a conditional directive, an
    [#include], or program text, and nothing but the macro table comes out
    of preprocessing it. *)
Theorem header_has_no_code :
  length (classify header) = line_count header ∧
  Forall (λ k, is_blank_or_comment k || is_object_define k = true)
         (classify header) ∧
  Forall (λ k, is_conditional k = false ∧ is_include k = false ∧
               is_code k = false) (classify header) ∧
  ∃ st, preprocess header = Ok st ∧ emitted st = [] ∧ conds st = [].
Proof.
  split; [evaluate|].
  split.
  { apply List.Forall_forall, List.forallb_forall. evaluate. }
  split.
  { apply Forall_impl with
      (P := λ k, is_conditional k || is_include k || is_code k = false).
    - apply List.Forall_forall.
      intros k Hk. apply negb_true_iff. revert k Hk.
      apply List.forallb_forall. evaluate.
    - intros k [[H1 H2]%orb_false_elim H3]%orb_false_elim. auto. }
  eexists. split; [exact header_preprocessed|]. split; reflexivity.
Qed.

(** C7: the repository slice holds one file, config-capdAlg.h, which is a
    generated header (its two opening comment lines say so) of exactly 74
    lines: 73 line feeds and a last line without one. *)
Theorem repository_is_one_header_of_74_lines :
  Source.repository = [ (Source.path, header) ] ∧
  length Source.repository = 1 ∧
  line_count header = 74 ∧
  count_char newline header = 73 ∧
  Forall (λ p, mentions "Generated" p.1 = true ∧ p.2 = LComment)
         (take 2 (line_table header)).
Proof.
  split; [reflexivity|].
  split; [reflexivity|].
  split; [evaluate|].
  split; [evaluate|].
  assert (take 2 (line_table header)
          = zip (take 2 Source.lines) [LComment; LComment]) as ->
    by evaluate.
  each_element; split; evaluate.
Qed.

(** C9: the names defined by the header are pairwise distinct: each one is
    the subject of exactly one [#define], and the macro table maps a name
    to a definition exactly when that [#define] is in the header. *)
Theorem no_macro_defined_twice :
  NoDup (define_names header) ∧
  Forall (λ n, define_count n header = 1) (define_names header) ∧
  (∀ name def,
      (name, def) ∈ defines header ↔ lookup_macro header name = Some def).
Proof.
  split; [exact header_define_names_nodup|].
  split; [|exact header_lookup].
  apply List.Forall_forall.
  assert (forallb (λ n, Nat.eqb (define_count n header) 1) (define_names header)
          = true) as H by evaluate.
  intros n Hn. apply Nat.eqb_eq. revert n Hn. by apply List.forallb_forall.
Qed.

(** ** Package strings *)

(** C4: PACKAGE_VERSION is the string literal "5.1.2" and PACKAGE_STRING is
    the string literal "capdAlg 5.1.2". *)
Theorem package_version_literal :
  lookup_macro header "PACKAGE_VERSION" = Some (object_like (quoted "5.1.2")) ∧
  macro_value_of header "PACKAGE_VERSION" = Some (VString "5.1.2") ∧
  lookup_macro header "PACKAGE_STRING"
    = Some (object_like (quoted "capdAlg 5.1.2")) ∧
  macro_value_of header "PACKAGE_STRING" = Some (VString "capdAlg 5.1.2").
Proof. conjuncts; evaluate. Qed.

(** C5: PACKAGE_NAME, PACKAGE_VERSION, PACKAGE_URL and PACKAGE_BUGREPORT are
    all defined, each as an object-like macro whose replacement list is one
    string literal. *)
Theorem package_macros_are_string_literals :
  Forall (λ n, ∃ s, lookup_macro header n = Some (object_like (quoted s)) ∧
                    macro_value_of header n = Some (VString s))
         package_macros.
Proof.
  each_element.
  - exists "capdAlg". split; evaluate.
  - exists "5.1.2". split; evaluate.
  - exists "http://capd.ii.uj.edu.pl". split; evaluate.
  - exists "http://capd.ii.uj.edu.pl". split; evaluate.
Qed.

(** C8: PACKAGE_STRING is PACKAGE_NAME, one space, and PACKAGE_VERSION put
    together. *)
Theorem package_string_is_name_space_version :
  ∃ name version,
    macro_value_of header "PACKAGE_NAME" = Some (VString name) ∧
    macro_value_of header "PACKAGE_VERSION" = Some (VString version) ∧
    macro_value_of header "PACKAGE_STRING"
      = Some (VString (name +:+ " " +:+ version)) ∧
    name = "capdAlg" ∧ version = "5.1.2".
Proof.
  exists "capdAlg", "5.1.2". conjuncts; evaluate.
Qed.

(** C10: PACKAGE_TARNAME is PACKAGE_NAME in ASCII lower case, and
    PACKAGE_URL and PACKAGE_BUGREPORT are the same string,
    "http://capd.ii.uj.edu.pl". *)
Theorem tarname_is_lowercase_name_and_url_is_bugreport :
  (∃ name,
      macro_value_of header "PACKAGE_NAME" = Some (VString name) ∧
      macro_value_of header "PACKAGE_TARNAME" = Some (VString (to_lower name)) ∧
      name = "capdAlg" ∧ to_lower name = "capdalg") ∧
  macro_value_of header "PACKAGE_URL" = macro_value_of header "PACKAGE_BUGREPORT" ∧
  macro_value_of header "PACKAGE_URL" = Some (VString "http://capd.ii.uj.edu.pl").
Proof.
  split; [exists "capdAlg"|]; conjuncts; evaluate.
Qed.

(** * Including a flat text into an arbitrary state *)

Lemma union_insert_present (m m' : gmap string macro_def) i x :
  m !! i = Some x → m ∪ <[i:=x]> m' = m ∪ m'.
Proof.
  intros Hi. apply map_eq. intros j. rewrite !lookup_union.
  destruct (decide (j = i)) as [->|Hne].
  - rewrite Hi, lookup_insert_eq. by destruct (m' !! i).
  - by rewrite lookup_insert_ne.
Qed.

Lemma run_lines_app (ks1 ks2 : list line_kind) (st : pp_state) :
  run_lines st (ks1 ++ ks2)
  = match run_lines st ks1 with
    | Ok st' => run_lines st' ks2
    | Err e => Err e
    end.
Proof.
  revert st. induction ks1 as [|k ks1 IH]; intros st; simpl; [done|].
  destruct (run_line st k); [apply IH|done].
Qed.

(** Inside a skipped conditional group a flat text does nothing. *)
Lemma run_lines_inactive (ks : list line_kind) (st : pp_state) :
  flat ks → active st = false → run_lines st ks = Ok st.
Proof.
  intros Hflat Hact. induction Hflat as [|k ks Hk _ IH]; [done|].
  destruct k as [| |d|t]; simpl in *; try done.
  destruct d; simpl in *; try done. by rewrite Hact.
Qed.

Lemma compatible_cons m p defs :
  compatible m (p :: defs)
  ↔ (m !! p.1 = None ∨ m !! p.1 = Some p.2) ∧ compatible m defs.
Proof.
  unfold compatible.
  exact (Forall_cons (λ q, m !! q.1 = None ∨ m !! q.1 = Some q.2) p defs).
Qed.

Lemma compatible_insert_fresh m name def defs :
  name ∉ defs.*1 → compatible m defs → compatible (<[name:=def]> m) defs.
Proof.
  unfold compatible. intros Hname Hc.
  apply Forall_forall. intros [n d] Hin.
  rewrite Forall_forall in Hc. specialize (Hc _ Hin). simpl in *.
  rewrite lookup_insert_ne; [done|].
  intros ->. apply Hname. apply list_elem_of_fmap. by exists (n, d).
Qed.

Lemma compatible_insert_inv m name def defs :
  m !! name = None → compatible (<[name:=def]> m) defs → compatible m defs.
Proof.
  unfold compatible. intros Hfresh Hc.
  apply Forall_forall. intros [n d] Hin.
  rewrite Forall_forall in Hc. specialize (Hc _ Hin). simpl in *.
  destruct (decide (n = name)) as [->|Hne]; [by left|].
  by rewrite lookup_insert_ne in Hc.
Qed.

(** In an active region, a flat text with pairwise distinct names that is
    compatible with the table runs without error and adds its definitions;
    what the table held stays as it was. *)
Lemma run_lines_compatible (ks : list line_kind) :
  ∀ st : pp_state,
  active st = true →
  flat ks →
  NoDup (omap define_of ks).*1 →
  compatible (macros st) (omap define_of ks) →
  run_lines st ks
  = Ok (PPState (macros st ∪ list_to_map (omap define_of ks))
                (conds st) (emitted st)).
Proof.
  induction ks as [|k ks IH]; intros [m cs out] Hact Hflat Hnd Hc.
  - simpl. by rewrite (right_id_L ∅ (∪)).
  - assert (∀ m', active (PPState m' cs out) = true) as Hact' by done.
    apply Forall_cons in Hflat as [Hk Hflat].
    destruct k as [| |d|t]; simpl in Hk; try done.
    + exact (IH (PPState m cs out) Hact Hflat Hnd Hc).
    + exact (IH (PPState m cs out) Hact Hflat Hnd Hc).
    + destruct d as [name def| | | | | | | | |]; simpl in Hk; try done.
      simpl in Hnd, Hc. apply NoDup_cons in Hnd as [Hname Hnd].
      apply compatible_cons in Hc as [Hhead Hc]. simpl in Hhead.
      cbn [run_lines run_line run_directive macros conds emitted].
      rewrite Hact. cbn [negb].
      destruct Hhead as [Hnone|Hsame].
      * rewrite Hnone.
        etrans.
        { apply (IH (PPState (<[name:=def]> m) cs out) (Hact' _) Hflat Hnd).
          by apply compatible_insert_fresh. }
        simpl. f_equal. f_equal.
        rewrite <- insert_union_l. by apply insert_union_r.
      * rewrite Hsame, bool_decide_eq_true_2 by done.
        etrans; [apply (IH (PPState m cs out) Hact Hflat Hnd Hc)|].
        simpl. f_equal. f_equal. symmetry. by apply union_insert_present.
Qed.

(** In an active region, a flat text that is not compatible with the table
    stops at a name that the table holds with another definition. *)
Lemma run_lines_conflict (ks : list line_kind) :
  ∀ st : pp_state,
  active st = true →
  flat ks →
  NoDup (omap define_of ks).*1 →
  ¬ compatible (macros st) (omap define_of ks) →
  ∃ n old new,
    run_lines st ks = Err (ERedefined n) ∧
    macros st !! n = Some old ∧ (n, new) ∈ omap define_of ks ∧ old ≠ new.
Proof.
  induction ks as [|k ks IH]; intros [m cs out] Hact Hflat Hnd Hc.
  - destruct Hc. apply Forall_nil_2.
  - assert (∀ m', active (PPState m' cs out) = true) as Hact' by done.
    apply Forall_cons in Hflat as [Hk Hflat].
    destruct k as [| |d|t]; simpl in Hk; try done.
    + exact (IH (PPState m cs out) Hact Hflat Hnd Hc).
    + exact (IH (PPState m cs out) Hact Hflat Hnd Hc).
    + destruct d as [name def| | | | | | | | |]; simpl in Hk; try done.
      simpl in Hnd, Hc. apply NoDup_cons in Hnd as [Hname Hnd].
      cbn [run_lines run_line run_directive macros conds emitted].
      rewrite Hact. cbn [negb].
      destruct (m !! name) as [old|] eqn:Hm.
      * destruct (decide (old = def)) as [->|Hne].
        -- rewrite bool_decide_eq_true_2 by done.
           destruct (IH (PPState m cs out) Hact Hflat Hnd)
             as (n & o & d & Hrun & Hn & Hin & Hod).
           { intros Hc'. apply Hc, compatible_cons. split; [by right|done]. }
           exists n, o, d. split; [done|]. split; [done|].
           split; [|done]. simpl. by apply list_elem_of_further.
        -- rewrite bool_decide_eq_false_2 by done.
           exists name, old, def. split; [done|]. split; [done|].
           split; [|done]. simpl. apply list_elem_of_here.
      * destruct (IH (PPState (<[name:=def]> m) cs out) (Hact' _) Hflat Hnd)
          as (n & o & d & Hrun & Hn & Hin & Hod).
        { intros Hc'. apply Hc, compatible_cons. split; [by left|].
          by apply (compatible_insert_inv m name def). }
        simpl in Hn.
        assert (n ≠ name) as Hnn.
        { intros ->. apply Hname, list_elem_of_fmap. by exists (name, d). }
        rewrite lookup_insert_ne in Hn by done.
        exists n, o, d. split; [done|]. split; [done|].
        split; [|done]. simpl. by apply list_elem_of_further.
Qed.

(** After a flat text has run, the table is compatible with it once more. *)
Lemma compatible_after (m : gmap string macro_def)
    (defs : list (string * macro_def)) :
  NoDup defs.*1 → compatible m defs → compatible (m ∪ list_to_map defs) defs.
Proof.
  intros Hnd Hc. unfold compatible in *.
  apply Forall_forall. intros [n d] Hin. right. simpl.
  rewrite Forall_forall in Hc. destruct (Hc _ Hin) as [Hnone|Hsome]; simpl in *.
  - rewrite lookup_union_r by done. by apply elem_of_list_to_map.
  - by apply lookup_union_Some_l.
Qed.

(** A flat text that has run once can run again from the state it left:
    nothing changes and nothing fails. *)
Lemma run_lines_flat_again (ks : list line_kind) (st st' : pp_state) :
  flat ks →
  NoDup (omap define_of ks).*1 →
  run_lines st ks = Ok st' →
  conds st' = conds st ∧ emitted st' = emitted st ∧ run_lines st' ks = Ok st'.
Proof.
  intros Hflat Hnd Hrun.
  destruct (active st) eqn:Hact.
  - destruct (decide (compatible (macros st) (omap define_of ks))) as [Hc|Hc].
    + rewrite (run_lines_compatible ks st Hact Hflat Hnd Hc) in Hrun.
      injection Hrun as <-. split; [done|]. split; [done|].
      set (st1 := PPState (macros st ∪ list_to_map (omap define_of ks))
                          (conds st) (emitted st)).
      rewrite (run_lines_compatible ks st1 Hact Hflat Hnd
                 (compatible_after _ _ Hnd Hc)).
      unfold st1. cbn [macros conds emitted].
      by rewrite <- (assoc_L (∪)), (idemp_L (∪)).
    + destruct (run_lines_conflict ks st Hact Hflat Hnd Hc)
        as (n & o & d & Herr & _).
      by rewrite Herr in Hrun.
  - rewrite (run_lines_inactive ks st Hflat Hact) in Hrun.
    injection Hrun as <-. split; [done|]. split; [done|].
    by apply run_lines_inactive.
Qed.

Lemma select_block_runs (st : pp_state) (name yes no : string) :
  active st = true →
  run_lines st (select_block name yes no)
  = Ok (PPState (macros st) (conds st)
                ((if is_defined st name then yes else no) :: emitted st)).
Proof.
  destruct st as [m cs out]. unfold active. simpl. intros Hact.
  unfold is_defined, active. simpl.
  destruct (bool_decide (is_Some (m !! name))); simpl; by rewrite Hact.
Qed.

(** ** Flat texts as included files *)

Lemma include_compatible (text : string) (st : pp_state) :
  flat (classify text) →
  NoDup (define_names text) →
  active st = true →
  compatible (macros st) (defines text) →
  ∃ tbl st',
    macro_table text = Some tbl ∧
    run_lines st (classify text) = Ok st' ∧
    macros st' = macros st ∪ tbl ∧
    conds st' = conds st ∧
    emitted st' = emitted st ∧
    (∀ n d, macros st !! n = Some d → macros st' !! n = Some d) ∧
    (∀ n d, (n, d) ∈ defines text → macros st' !! n = Some d) ∧
    (∀ n, n ∉ define_names text → macros st' !! n = macros st !! n).
Proof.
  intros Hflat Hnd Hact Hc.
  exists (list_to_map (defines text)).
  exists (PPState (macros st ∪ list_to_map (defines text)) (conds st) (emitted st)).
  split; [by apply macro_table_flat|].
  split; [by apply run_lines_compatible|].
  cbn [macros conds emitted].
  split; [done|]. split; [done|]. split; [done|].
  split; [|split].
  - intros n d Hn. by apply lookup_union_Some_l.
  - intros n d Hin.
    pose proof (compatible_after _ _ Hnd Hc) as Hafter.
    unfold compatible in Hafter. rewrite Forall_forall in Hafter.
    destruct (Hafter _ Hin) as [Hnone|Hsome]; simpl in *; [|done].
    rewrite lookup_union_r in Hnone.
    + apply (elem_of_list_to_map _ _ _ Hnd) in Hin. congruence.
    + apply lookup_union_None in Hnone. tauto.
  - intros n Hn. apply lookup_union_l. by apply not_elem_of_list_to_map_1.
Qed.

Lemma include_twice (text : string) (st st' : pp_state) :
  flat (classify text) →
  NoDup (define_names text) →
  classify (text +:+ String newline text) = (classify text ++ classify text)%list →
  preprocess_from st text = Ok st' →
  preprocess_from st' text = Ok st' ∧
  preprocess_from st (text +:+ String newline text) = Ok st'.
Proof.
  intros Hflat Hnd Htwice. unfold preprocess_from.
  destruct (run_lines st (classify text)) as [st1|e] eqn:Hrun; [|done].
  destruct (conds st1) eqn:Hconds; [|done].
  intros [= <-].
  destruct (run_lines_flat_again _ _ _ Hflat Hnd Hrun) as (_ & _ & Hagain).
  rewrite Htwice, run_lines_app, Hrun, Hagain, Hconds. done.
Qed.

Lemma is_Some_list_to_map (defs : list (string * macro_def)) (name : string) :
  is_Some ((list_to_map defs : gmap string macro_def) !! name) ↔ name ∈ defs.*1.
Proof.
  rewrite <- not_eq_None_Some, <- not_elem_of_list_to_map.
  split; [apply dec_stable|by intros ? ?].
Qed.

Lemma select_after_include (text : string) (st : pp_state)
    (name yes no : string) :
  flat (classify text) →
  NoDup (define_names text) →
  active st = true →
  compatible (macros st) (defines text) →
  ∃ st',
    run_lines st (classify text) = Ok st' ∧
    run_lines st' (select_block name yes no)
    = Ok (PPState (macros st') (conds st)
            ((if bool_decide (name ∈ define_names text
                              ∨ is_Some (macros st !! name))
              then yes else no) :: emitted st)).
Proof.
  intros Hflat Hnd Hact Hc.
  set (st1 := PPState (macros st ∪ list_to_map (defines text))
                      (conds st) (emitted st)).
  exists st1.
  split; [by apply run_lines_compatible|].
  rewrite (select_block_runs st1 name yes no Hact).
  unfold st1, is_defined. cbn [macros conds emitted].
  rewrite (bool_decide_ext
             (is_Some ((macros st ∪ list_to_map (defines text)) !! name))
             (name ∈ define_names text ∨ is_Some (macros st !! name)));
    [done|].
  rewrite lookup_union_is_Some, is_Some_list_to_map. tauto.
Qed.

(** * Further properties of the header *)

Lemma header_twice_classified :
  classify (header +:+ String newline header)
  = (classify header ++ classify header)%list.
Proof. evaluate. Qed.

(** X1: the header defines 19 macros, all object-like.  Those named HAVE_...
    and STDC_HEADERS have the integer 1 as value; every other one, LT_OBJDIR
    and the PACKAGE_... macros, is a non-empty string literal; LT_OBJDIR is
    ".libs/". *)
Theorem header_values_are_one_or_string :
  length (defines header) = 19 ∧
  Forall (λ p, md_params p.2 = None ∧
               if is_feature_name p.1
               then value_of_body (md_body p.2) = VInteger 1
               else ∃ s, value_of_body (md_body p.2) = VString s ∧ s ≠ "")
         (defines header) ∧
  macro_value_of header "LT_OBJDIR" = Some (VString ".libs/").
Proof.
  split; [evaluate|]. split; [|evaluate].
  let v := eval vm_compute in (defines header) in
  assert (defines header = v) as -> by evaluate.
  each_element; (split; [reflexivity|]); vm_compute;
    first [ reflexivity | eexists; split; [reflexivity|discriminate] ].
Qed.

(** X2: after its two opening comments the header is a run of three-line
    groups: a blank line, a comment describing a symbol, and the entry of
    that symbol, which is a definition or a commented-out [#undef].  The 24
    entries come in ascending order of name, and the symbols left undefined
    this way are exactly the five back-end macros. *)
Theorem header_layout :
  laid_out (drop 2 (line_table header)) = true ∧
  length (entry_names header) = 24 ∧
  ascending (entry_names header) = true ∧
  (∀ n, n ∈ undef_names header ↔ n ∈ backend_macros).
Proof.
  split; [evaluate|]. split; [evaluate|]. split; [evaluate|].
  let v := eval vm_compute in (undef_names header) in
  assert (undef_names header = v) as -> by evaluate.
  intros n. unfold backend_macros.
  rewrite !elem_of_cons, !elem_of_nil. tauto.
Qed.

(** X3: wherever the header is read in an active region with a macro table
    that holds none of its names, or holds them with the same definition,
    it is read without error: the table grows by the header's definitions,
    every macro defined before keeps its definition (nothing is undefined),
    and no text is passed on. *)
Theorem header_inclusion_keeps_macros (st : pp_state) :
  active st = true →
  compatible (macros st) (defines header) →
  ∃ tbl st',
    macro_table header = Some tbl ∧
    run_lines st (classify header) = Ok st' ∧
    macros st' = macros st ∪ tbl ∧
    conds st' = conds st ∧
    emitted st' = emitted st ∧
    (∀ n d, macros st !! n = Some d → macros st' !! n = Some d) ∧
    (∀ n d, (n, d) ∈ defines header → macros st' !! n = Some d) ∧
    (∀ n, n ∉ define_names header → macros st' !! n = macros st !! n).
Proof.
  exact (include_compatible header st header_flat header_define_names_nodup).
Qed.

Lemma header_inclusion_keeps_macros_witness :
  active predefined_state = true ∧
  compatible (macros predefined_state) (defines header) ∧
  ∃ tbl st',
    macro_table header = Some tbl ∧
    run_lines predefined_state (classify header) = Ok st' ∧
    macros st' = macros predefined_state ∪ tbl ∧
    conds st' = conds predefined_state ∧
    emitted st' = emitted predefined_state ∧
    (∀ n d, macros predefined_state !! n = Some d → macros st' !! n = Some d) ∧
    (∀ n d, (n, d) ∈ defines header → macros st' !! n = Some d) ∧
    (∀ n, n ∉ define_names header →
          macros st' !! n = macros predefined_state !! n).
Proof.
  split; [reflexivity|].
  split; [apply (bool_decide_unpack _); vm_compute; reflexivity|].
  apply (header_inclusion_keeps_macros predefined_state).
  - reflexivity.
  - apply (bool_decide_unpack _); vm_compute; reflexivity.
Defined.

(** X5: the header has no include guard, yet reading it again is harmless:
    from the state a first reading left, a second reading changes nothing
    and raises no error, and the header written twice in a row gives the
    state that one copy gives. *)
Theorem header_double_inclusion (st st' : pp_state) :
  preprocess_from st header = Ok st' →
  preprocess_from st' header = Ok st' ∧
  preprocess_from st (header +:+ String newline header) = Ok st'.
Proof.
  exact (include_twice header st st' header_flat header_define_names_nodup
           header_twice_classified).
Qed.

Lemma header_double_inclusion_witness :
  preprocess_from initial header = Ok header_state ∧
  preprocess_from header_state header = Ok header_state ∧
  preprocess_from initial (header +:+ String newline header) = Ok header_state.
Proof.
  split; [vm_compute; reflexivity|].
  apply (header_double_inclusion initial header_state).
  vm_compute; reflexivity.
Defined.

(** X6: once the header has been read in an active region into a table
    it is compatible with, a consumer's [#ifdef NAME] ... [#else] ...
    [#endif] gets the first branch exactly when NAME is one of the 19 names
    the header defines or was defined before the header was read, and the
    second branch for every other name. *)
Theorem header_selects_branch (st : pp_state) (name yes no : string) :
  active st = true →
  compatible (macros st) (defines header) →
  ∃ st',
    run_lines st (classify header) = Ok st' ∧
    run_lines st' (select_block name yes no)
    = Ok (PPState (macros st') (conds st)
            ((if bool_decide (name ∈ define_names header
                              ∨ is_Some (macros st !! name))
              then yes else no) :: emitted st)).
Proof.
  exact (select_after_include header st name yes no
           header_flat header_define_names_nodup).
Qed.

Lemma header_selects_branch_witness :
  active predefined_state = true ∧
  compatible (macros predefined_state) (defines header) ∧
  ∃ st',
    run_lines predefined_state (classify header) = Ok st' ∧
    run_lines st' (select_block "HAVE_LIBGMP" "gmp();" "plain();")
    = Ok (PPState (macros st') (conds predefined_state)
            ((if bool_decide ("HAVE_LIBGMP" ∈ define_names header
                              ∨ is_Some (macros predefined_state !! "HAVE_LIBGMP"))
              then "gmp();" else "plain();") :: emitted predefined_state)).
Proof.
  split; [reflexivity|].
  split; [apply (bool_decide_unpack _); vm_compute; reflexivity|].
  apply (header_selects_branch predefined_state "HAVE_LIBGMP" "gmp();" "plain();").
  - reflexivity.
  - apply (bool_decide_unpack _); vm_compute; reflexivity.
Defined.

(** X7: the header is plain text: every byte is a printable ASCII character
    or a line feed, there is no backslash and no question mark (no line
    splicing, no trigraph), no line ends in white space, and every comment
    is closed on the line that opens it. *)
Theorem header_plain_text :
  all_chars (λ c, is_printable c || Ascii.eqb c newline) header = true ∧
  count_char "\" header = 0 ∧
  count_char "?" header = 0 ∧
  Forall (λ l, sc_mode (scan_line MCode l) = MCode ∧ ends_with_space l = false)
         (split_lines header).
Proof.
  split; [evaluate|]. split; [evaluate|]. split; [evaluate|].
  apply List.Forall_forall. intros l Hl.
  assert (forallb (λ l, bool_decide (sc_mode (scan_line MCode l) = MCode)
                        && negb (ends_with_space l))
                  (split_lines header) = true) as Hall by evaluate.
  rewrite List.forallb_forall in Hall. specialize (Hall l Hl).
  apply andb_prop in Hall as [Hmode Hspace].
  split; [by apply bool_decide_eq_true in Hmode|by apply negb_true_iff].
Qed.

(** X8: read inside a conditional group that is being skipped, the header
    has no effect at all: no macro is defined and no error is raised, even
    when the table holds clashing definitions. *)
Theorem header_in_skipped_group (st : pp_state) :
  active st = false → run_lines st (classify header) = Ok st.
Proof. exact (run_lines_inactive (classify header) st header_flat). Qed.

Lemma header_in_skipped_group_witness :
  active (open_group false sibling_state) = false ∧
  run_lines (open_group false sibling_state) (classify header)
  = Ok (open_group false sibling_state).
Proof.
  split; [reflexivity|].
  apply (header_in_skipped_group (open_group false sibling_state)).
  reflexivity.
Defined.
